(** * sercap: capture of serial-port output up to a sentinel byte

    Shallow embedding of [tools/sercap.py] and of its copy
    [tests/sercap.py] (Python 2, pyserial), and the properties of the
    capture routine.

    The script talks to three things it does not control: the serial
    port, the wall clock and standard output.  Their answers are
    scripted by an [env]; every call the script makes is appended to a
    [trace].  The script's module-level variables [reading], [timeout]
    and [s] live in the [state], which an exception does not roll back
    (that is what makes [finally: if s: s.close()] meaningful). *)

From Stdlib Require Import List ZArith Bool Lia.
From Stdlib Require Import Strings.String Strings.Byte.
Import ListNotations.
Open Scope Z_scope.

(** ** Python values used by the script *)

Definition bytes := list byte.

Module Py.

(** [s.startswith(prefix)] on Python 2 [str]. *)
Fixpoint startswith (s prefix : bytes) {struct prefix} : bool :=
  match prefix, s with
  | [], _ => true
  | _ :: _, [] => false
  | p :: ps, c :: cs => Byte.eqb p c && startswith cs ps
  end.

(** [needle in hay] on Python 2 [str]: substring test. *)
Fixpoint contains (needle hay : bytes) : bool :=
  startswith hay needle ||
  match hay with
  | [] => false
  | _ :: rest => contains needle rest
  end.

(** [len(d)] *)
Definition len (d : bytes) : Z := Z.of_nat (List.length d).

(** [timedelta.total_seconds() > n] for an integer [n].  Timestamps
    are [datetime] values, which have microsecond resolution; they are
    kept as a number of microseconds, so that a [timedelta] is a
    difference of two of them.  [total_seconds()] divides the
    microsecond count by 10**6; for an integer bound the comparison
    of the quotient with [n] is the comparison of the count with
    [n * 10**6]. *)
Definition total_seconds_gt (elapsed_us n : Z) : bool :=
  n * 1000000 <? elapsed_us.

End Py.

(** ** The outside world *)

(** What a call into the outside world does: return a value or raise. *)
Inductive reply (A : Type) : Type :=
| Returns (a : A)
| Raises.
Arguments Returns {A} a.
Arguments Raises {A}.

(** A [serial.Serial] object, with the parameters it was opened with. *)
Record Serial : Type := mkSerial {
  port : string;
  baudrate : Z;
  read_timeout_ms : Z
}.

(** The calls the script makes, in the order it makes them. *)
Inductive event : Type :=
| EvOpen (dev : Serial)          (* serial.Serial(port, baudrate, timeout=...) *)
| EvFlushInput                   (* s.flushInput() *)
| EvSleep (ms : Z)               (* time.sleep(...) *)
| EvWrite (data : bytes)         (* s.write(data) *)
| EvNow (ts : Z)                 (* datetime.datetime.now(), with its answer *)
| EvRead (r : reply bytes)       (* s.read(), with its answer *)
| EvStdout (data : bytes)        (* sys.stdout.write(data) *)
| EvClose.                       (* s.close() *)

(** One turn of the reading loop as the world answers it: what
    [s.read()] does and what [datetime.datetime.now()] returns (in
    microseconds). *)
Record iteration : Type := mkIteration {
  read_reply : reply bytes;
  now_reply : Z
}.

(** A scripted world.  [iterations] is a finite script: a run that is
    still reading when it is used up is reported as [Pending]. *)
Record env : Type := mkEnv {
  open_reply : reply unit;
  flush_reply : reply unit;
  write_reply : reply unit;
  start_now : Z;
  iterations : list iteration
}.

(** ** Script state and the monad of script fragments *)

Record state : Type := mkState {
  reading : bool;
  timeout : bool;
  s : option Serial;
  trace : list event
}.

Inductive completion (A : Type) : Type :=
| Normal (a : A)     (* ran to its end *)
| Raised             (* an exception is propagating *)
| Pending.           (* the scripted world has no further answer *)
Arguments Normal {A} a.
Arguments Raised {A}.
Arguments Pending {A}.

Definition M (A : Type) : Type := state -> state * completion A.

Definition ret {A} (a : A) : M A := fun st => (st, Normal a).

Definition bind {A B} (m : M A) (f : A -> M B) : M B :=
  fun st =>
    match m st with
    | (st', Normal a) => f a st'
    | (st', Raised) => (st', Raised)
    | (st', Pending) => (st', Pending)
    end.

Declare Scope script_scope.
Delimit Scope script_scope with script.
Notation "x <- c1 ;; c2" := (bind c1 (fun x => c2))
  (at level 61, c1 at next level, right associativity) : script_scope.
Notation "c1 ;; c2" := (bind c1 (fun _ => c2))
  (at level 61, right associativity) : script_scope.
Open Scope script_scope.

(** [try: body finally: cleanup].  The cleanup runs whether the body
    ended or raised, and the body's exception goes on propagating
    afterwards; a body that has not finished yet has not reached it. *)
Definition try_finally {A} (body : M A) (cleanup : M unit) : M A :=
  fun st =>
    match body st with
    | (st', Pending) => (st', Pending)
    | (st', r) =>
        match cleanup st' with
        | (st'', Normal _) => (st'', r)
        | (st'', Raised) => (st'', Raised)
        | (st'', Pending) => (st'', Pending)
        end
    end.

Definition log (ev : event) : M unit :=
  fun st => (mkState (reading st) (timeout st) (s st) (trace st ++ [ev]), Normal tt).

Definition lift_reply {A} (r : reply A) : M A :=
  fun st => match r with
            | Returns a => (st, Normal a)
            | Raises => (st, Raised)
            end.

Definition set_reading (b : bool) : M unit :=
  fun st => (mkState b (timeout st) (s st) (trace st), Normal tt).

Definition set_timeout (b : bool) : M unit :=
  fun st => (mkState (reading st) b (s st) (trace st), Normal tt).

Definition set_s (v : option Serial) : M unit :=
  fun st => (mkState (reading st) (timeout st) v (trace st), Normal tt).

Definition get_reading : M bool := fun st => (st, Normal (reading st)).
Definition get_timeout : M bool := fun st => (st, Normal (timeout st)).
Definition get_s : M (option Serial) := fun st => (st, Normal (s st)).

(** *** The library calls *)

Definition serial_Serial (p : string) (baud : Z) (tmo_ms : Z) (r : reply unit)
  : M Serial :=
  let dev := mkSerial p baud tmo_ms in
  log (EvOpen dev) ;; lift_reply r ;; ret dev.

Definition flushInput (r : reply unit) : M unit :=
  log EvFlushInput ;; lift_reply r.

Definition time_sleep (ms : Z) : M unit := log (EvSleep ms).

Definition serial_write (data : bytes) (r : reply unit) : M unit :=
  log (EvWrite data) ;; lift_reply r.

Definition datetime_now (ts : Z) : M Z := log (EvNow ts) ;; ret ts.

Definition serial_read (r : reply bytes) : M bytes :=
  log (EvRead r) ;; lift_reply r.

Definition stdout_write (d : bytes) : M unit := log (EvStdout d).

Definition serial_close : M unit := log EvClose.

(** State of the interpreter when the [try] statement is reached:
    [reading = True], [timeout = False], [s = None]. *)
Definition initial : state := mkState true false None [].

(** [sys.exit(code)]: the script ends with this status. *)
Definition sys_exit (code : Z) : M Z := ret code.

(** ** tools/sercap.py *)

Module Tools.

Definition sentinel : bytes := [x03].
Definition timeout_s : Z := 7.

(** Lines 41-52: one turn of [while reading:]. *)
Definition loop_body (start_reading_ts : Z) (o : iteration) : M unit :=
  d <- serial_read (read_reply o) ;;
  (if negb (Py.len d =? 0) then stdout_write d else ret tt) ;;
  (if Py.contains sentinel d then set_reading false else ret tt) ;;
  now_ts <- datetime_now (now_reply o) ;;
  let elapsed := now_ts - start_reading_ts in
  if Py.total_seconds_gt elapsed timeout_s
  then set_reading false ;; set_timeout true
  else ret tt.

(** Lines 40-52: [while reading:], one scripted answer per turn. *)
Fixpoint while_reading (start_reading_ts : Z) (script : list iteration)
  : M unit :=
  fun st =>
    if reading st then
      match script with
      | [] => (st, Pending)
      | o :: rest =>
          (loop_body start_reading_ts o ;;
           while_reading start_reading_ts rest) st
      end
    else (st, Normal tt).

(** Lines 33-60: the [try]/[finally] statement and the exit status. *)
Definition main (e : env) : M Z :=
  try_finally
    (dev <- serial_Serial "/dev/tty.usbmodem1421" 115200 100 (open_reply e) ;;
     set_s (Some dev) ;;
     flushInput (flush_reply e) ;;
     time_sleep 500 ;;
     serial_write [x20] (write_reply e) ;;
     start_reading_ts <- datetime_now (start_now e) ;;
     while_reading start_reading_ts (iterations e))
    (h <- get_s ;;
     match h with
     | Some _ => serial_close
     | None => ret tt
     end) ;;
  t <- get_timeout ;;
  if t then sys_exit 1 else sys_exit 0.

End Tools.

(** ** tests/sercap.py *)

Module Tests.

Definition sentinel : bytes := [x03].
Definition timeout_s : Z := 7.

(** Lines 22-33: one turn of [while reading:]. *)
Definition loop_body (start_reading_ts : Z) (o : iteration) : M unit :=
  d <- serial_read (read_reply o) ;;
  (if negb (Py.len d =? 0) then stdout_write d else ret tt) ;;
  (if Py.contains sentinel d then set_reading false else ret tt) ;;
  now_ts <- datetime_now (now_reply o) ;;
  let elapsed := now_ts - start_reading_ts in
  if Py.total_seconds_gt elapsed timeout_s
  then set_reading false ;; set_timeout true
  else ret tt.

(** Lines 21-33: [while reading:]. *)
Fixpoint while_reading (start_reading_ts : Z) (script : list iteration)
  : M unit :=
  fun st =>
    if reading st then
      match script with
      | [] => (st, Pending)
      | o :: rest =>
          (loop_body start_reading_ts o ;;
           while_reading start_reading_ts rest) st
      end
    else (st, Normal tt).

(** Lines 14-41: the [try]/[finally] statement and the exit status. *)
Definition main (e : env) : M Z :=
  try_finally
    (dev <- serial_Serial "/dev/tty.usbmodem1421" 115200 100 (open_reply e) ;;
     set_s (Some dev) ;;
     flushInput (flush_reply e) ;;
     time_sleep 500 ;;
     serial_write [x20] (write_reply e) ;;
     start_reading_ts <- datetime_now (start_now e) ;;
     while_reading start_reading_ts (iterations e))
    (h <- get_s ;;
     match h with
     | Some _ => serial_close
     | None => ret tt
     end) ;;
  t <- get_timeout ;;
  if t then sys_exit 1 else sys_exit 0.

End Tests.

(** ** What a run is observed to do *)

(** How the process ends.  [Uncaught]: an exception left the script
    (the interpreter prints a traceback; [sys.exit] was not reached).
    [StillReading]: the scripted world was used up inside the loop. *)
Inductive outcome : Type :=
| Exited (code : Z)
| Uncaught
| StillReading.

Definition outcome_of (c : completion Z) : outcome :=
  match c with
  | Normal code => Exited code
  | Raised => Uncaught
  | Pending => StillReading
  end.

(** The bytes that reached standard output, in order. *)
Definition stdout_of (tr : list event) : bytes :=
  flat_map (fun ev => match ev with EvStdout d => d | _ => [] end) tr.

(** The chunks [s.read()] returned, in order. *)
Definition chunks_of (tr : list event) : list bytes :=
  flat_map (fun ev => match ev with EvRead (Returns d) => [d] | _ => [] end) tr.

Definition is_close (ev : event) : bool :=
  match ev with EvClose => true | _ => false end.

Definition is_read (ev : event) : bool :=
  match ev with EvRead _ => true | _ => false end.

Definition is_stdout (ev : event) : bool :=
  match ev with EvStdout _ => true | _ => false end.

(** Number of [s.close()] calls. *)
Definition closes (tr : list event) : nat := List.length (filter is_close tr).

Definition run (e : env) : state * completion Z := Tools.main e initial.
Definition events (e : env) : list event := trace (fst (run e)).
Definition exit_of (e : env) : outcome := outcome_of (snd (run e)).
Definition stdout (e : env) : bytes := stdout_of (events e).

Definition run_tests (e : env) : state * completion Z := Tests.main e initial.

(** *** Sample worlds *)

Definition ok : reply unit := Returns tt.

(** "init ok\x03" *)
Definition init_ok_etx : bytes := [x69; x6e; x69; x74; x20; x6f; x6b; x03].

Definition world (start : Z) (its : list iteration) : env :=
  mkEnv ok ok ok start its.

(** ** Vocabulary of the statements *)

Definition device : Serial := mkSerial "/dev/tty.usbmodem1421" 115200 100.

(** Lines 34-38 when nothing raises. *)
Definition setup_events (e : env) : list event :=
  [EvOpen device; EvFlushInput; EvSleep 500; EvWrite [x20]; EvNow (start_now e)].

(** Opening, flushing and the wake-byte write all return. *)
Definition setup_ok (e : env) : Prop :=
  open_reply e = Returns tt /\
  flush_reply e = Returns tt /\
  write_reply e = Returns tt.

Definition status_of (c : completion bool) : completion Z :=
  match c with
  | Normal t => Normal (if t then 1 else 0)
  | Raised => Raised
  | Pending => Pending
  end.

(** The [finally] block, once the [try] body is over. *)
Definition closing (c : completion bool) : list event :=
  match c with
  | Pending => []
  | _ => [EvClose]
  end.

(** The chunk a turn delivers (nothing when the read raises). *)
Definition chunk (o : iteration) : bytes :=
  match read_reply o with
  | Returns d => d
  | Raises => []
  end.

(** A turn that leaves the loop running: the read returns a chunk
    without the sentinel byte and the clock shows at most 7 s since
    [start]. *)
Definition quiet (start : Z) (o : iteration) : Prop :=
  exists d, read_reply o = Returns d /\ ~ In x03 d /\
            now_reply o - start <= 7000000.

Definition init_ok_world : env :=
  world 0 [mkIteration (Returns []) 100000;
           mkIteration (Returns init_ok_etx) 900000].

Definition silent_world : env :=
  world 0 [mkIteration (Returns []) 100000;
           mkIteration (Returns []) 8000000].

(** The sentinel arrives alone, and 8 s are on the clock. *)
Definition late_sentinel : env :=
  world 0 [mkIteration (Returns [x03]) 8000000].

(** A read that raises after two bytes were captured. *)
Definition broken_read : env :=
  world 0 [mkIteration (Returns [x6f; x6b]) 100000; mkIteration Raises 200000].

Definition nonempty (d : bytes) : bool := negb (Py.len d =? 0).

Ltac peel H l :=
  destruct l as [|? l]; [discriminate H | cbn [app] in H; injection H as <- H].

(** A device that sends the sentinel and goes on within the same chunk. *)
Definition etx_then_more : env :=
  world 0 [mkIteration (Returns [x6f; x6b]) 100000;
           mkIteration (Returns [x03; x0d; x0a]) 200000;
           mkIteration (Returns [x6f; x6b]) 300000].

(** The response is the sentinel byte, and 7.000001 s are on the clock. *)
Definition late_first_byte : env :=
  world 0 [mkIteration (Returns [x03]) 7000001].

(** The device is slow to answer: a first read returns nothing, the next
    one the sentinel, which is the first byte of the response. *)
Definition slow_device : env :=
  world 5000000 [mkIteration (Returns []) 5100000;
                 mkIteration (Returns [x03]) 5200000].

(** The time a turn sees on the clock, counted from the capture start. *)
Definition elapsed_us (start : Z) (o : iteration) : Z := now_reply o - start.

(** The same device answers, captured in the morning and at night. *)
Definition run_morning : env :=
  world 32400000000 [mkIteration (Returns []) 32400100000;
                     mkIteration (Returns init_ok_etx) 32400200000].

Definition run_night : env :=
  world 82800000000 [mkIteration (Returns []) 82800100000;
                     mkIteration (Returns init_ok_etx) 82800200000].

(** A turn that reads nothing while the clock is within the deadline. *)
Definition idle (start : Z) (o : iteration) : Prop :=
  read_reply o = Returns [] /\ now_reply o - start <= 7000000.

(** The calls of turns that read nothing. *)
Definition idle_events (pre : list iteration) : list event :=
  flat_map (fun q => [EvRead (Returns []); EvNow (now_reply q)]) pre.




Definition is_write (ev : event) : bool :=
  match ev with EvWrite _ => true | _ => false end.

Definition is_now (ev : event) : bool :=
  match ev with EvNow _ => true | _ => false end.

(** The world [e] with further scripted answers for the loop. *)
Definition extend (e : env) (more : list iteration) : env :=
  mkEnv (open_reply e) (flush_reply e) (write_reply e) (start_now e)
        (iterations e ++ more).

(** The port cannot be opened. *)
Definition no_device : env := mkEnv Raises ok ok 0 [].

(** "partial" *)
Definition partial : bytes := [x70; x61; x72; x74; x69; x61; x6c].

(** The device sends "partial" and goes silent until the deadline passes. *)
Definition partial_then_silence : env :=
  world 0 [mkIteration (Returns partial) 100000;
           mkIteration (Returns []) 7000000;
           mkIteration (Returns []) 7100000].

(** ** The reading loop in closed form *)

Section Loop.

Variable start : Z.

(** The timeout test of lines 48-50 for the turn [o]. *)
Definition expired (o : iteration) : bool :=
  Py.total_seconds_gt (now_reply o - start) Tools.timeout_s.

(** Lines 42-43: an empty chunk is not written. *)
Definition forwarded (d : bytes) : list event :=
  if negb (Py.len d =? 0) then [EvStdout d] else [].

(** The calls of a turn whose read returned [d]. *)
Definition turn_events (o : iteration) (d : bytes) : list event :=
  EvRead (Returns d) :: forwarded d ++ [EvNow (now_reply o)].

(** Does the turn reset [reading]? *)
Definition stops (o : iteration) (d : bytes) : bool :=
  Py.contains Tools.sentinel d || expired o.

(** The calls the loop makes on a script. *)
Fixpoint loop_events (script : list iteration) : list event :=
  match script with
  | [] => []
  | o :: rest =>
      match read_reply o with
      | Raises => [EvRead Raises]
      | Returns d =>
          turn_events o d ++ (if stops o d then [] else loop_events rest)
      end
  end.

(** How the loop ends on a script, with the value of [timeout] when it
    ends normally. *)
Fixpoint loop_end (script : list iteration) : completion bool :=
  match script with
  | [] => Pending
  | o :: rest =>
      match read_reply o with
      | Raises => Raised
      | Returns d =>
          if expired o then Normal true
          else if Py.contains Tools.sentinel d then Normal false
          else loop_end rest
      end
  end.

Definition reading_after (c : completion bool) : bool :=
  match c with Normal _ => false | _ => true end.

Definition timeout_after (c : completion bool) : bool :=
  match c with Normal t => t | _ => false end.

Definition forget (c : completion bool) : completion unit :=
  match c with
  | Normal _ => Normal tt
  | Raised => Raised
  | Pending => Pending
  end.

Lemma body_returns (o : iteration) (d : bytes) (st : state) :
  read_reply o = Returns d ->
  Tools.loop_body start o st =
    (mkState (reading st && negb (stops o d)) (timeout st || expired o)
             (s st) (trace st ++ turn_events o d),
     Normal tt).
Proof.
  intros Hr. unfold Tools.loop_body, serial_read, stdout_write, datetime_now,
    set_reading, set_timeout, lift_reply, log, bind, ret, stops, turn_events,
    forwarded, expired.
  rewrite Hr. cbn [reading timeout s trace fst snd].
  destruct (negb (Py.len d =? 0));
    destruct (Py.contains Tools.sentinel d);
    destruct (Py.total_seconds_gt (now_reply o - start) Tools.timeout_s);
    cbn [reading timeout s trace orb negb andb];
    rewrite <- ?app_assoc; cbn [app];
    rewrite ?andb_true_r, ?andb_false_r, ?orb_true_r, ?orb_false_r;
    reflexivity.
Qed.

Lemma body_raises (o : iteration) (st : state) :
  read_reply o = Raises ->
  Tools.loop_body start o st =
    (mkState (reading st) (timeout st) (s st) (trace st ++ [EvRead Raises]),
     Raised).
Proof.
  intros Hr. unfold Tools.loop_body, serial_read, lift_reply, log, bind.
  rewrite Hr. reflexivity.
Qed.

Lemma while_stopped (script : list iteration) (st : state) :
  reading st = false -> Tools.while_reading start script st = (st, Normal tt).
Proof. intros H. destruct script; cbn; rewrite H; reflexivity. Qed.

(** The loop, started with [reading = True] and [timeout = False], makes
    the calls [loop_events] and ends as [loop_end] says. *)
Lemma while_reading_closed (script : list iteration) :
  forall st : state,
    reading st = true -> timeout st = false ->
    Tools.while_reading start script st =
      (mkState (reading_after (loop_end script))
               (timeout_after (loop_end script))
               (s st) (trace st ++ loop_events script),
       forget (loop_end script)).
Proof.
  induction script as [|o rest IH]; intros st Hr Ht.
  - cbn. rewrite Hr. destruct st as [r t h tr]; cbn in *; subst.
    rewrite app_nil_r. reflexivity.
  - cbn [Tools.while_reading]. rewrite Hr. unfold bind.
    cbn [loop_events loop_end].
    destruct (read_reply o) as [d|] eqn:Ho.
    + rewrite (body_returns o d st Ho). rewrite Hr, Ht. cbn [andb orb].
      unfold stops. destruct (expired o) eqn:He.
      * rewrite orb_true_r. cbn [negb]. rewrite while_stopped by reflexivity.
        cbn. rewrite app_nil_r. reflexivity.
      * rewrite orb_false_r.
        destruct (Py.contains Tools.sentinel d) eqn:Hs; cbn [negb].
        -- rewrite while_stopped by reflexivity. cbn. rewrite app_nil_r.
           reflexivity.
        -- rewrite IH by reflexivity. cbn [s trace].
           rewrite <- app_assoc. reflexivity.
    + rewrite (body_raises o st Ho). rewrite Hr, Ht. reflexivity.
Qed.

End Loop.

(** ** The whole run in closed form *)

Lemma reply_unit (r : reply unit) : r = Returns tt \/ r = Raises.
Proof. destruct r as [[]|]; auto. Qed.

Lemma run_open_raises (e : env) :
  open_reply e = Raises ->
  run e = (mkState true false None [EvOpen device], Raised).
Proof.
  intros H. unfold run, Tools.main, try_finally, bind, serial_Serial, bind,
    lift_reply, log. rewrite H. reflexivity.
Qed.

Lemma run_flush_raises (e : env) :
  open_reply e = Returns tt -> flush_reply e = Raises ->
  run e = (mkState true false (Some device)
                   [EvOpen device; EvFlushInput; EvClose], Raised).
Proof.
  intros Ho Hf. unfold run, Tools.main, try_finally, bind, serial_Serial,
    flushInput, bind, lift_reply, log. rewrite Ho. cbn. rewrite Hf. reflexivity.
Qed.

Lemma run_write_raises (e : env) :
  open_reply e = Returns tt -> flush_reply e = Returns tt ->
  write_reply e = Raises ->
  run e = (mkState true false (Some device)
                   [EvOpen device; EvFlushInput; EvSleep 500; EvWrite [x20];
                    EvClose], Raised).
Proof.
  intros Ho Hf Hw. unfold run, Tools.main, try_finally, bind, serial_Serial,
    flushInput, serial_write, time_sleep, bind, lift_reply, log.
  rewrite Ho. cbn. rewrite Hf. cbn. rewrite Hw. reflexivity.
Qed.

Lemma run_setup_ok (e : env) :
  setup_ok e ->
  let c := loop_end (start_now e) (iterations e) in
  run e =
    (mkState (reading_after c) (timeout_after c) (Some device)
             (setup_events e ++ loop_events (start_now e) (iterations e)
                ++ closing c),
     status_of c).
Proof.
  intros (Ho & Hf & Hw) c. unfold run, Tools.main, try_finally.
  unfold bind at 1 2 3 4 5 6 7.
  unfold serial_Serial, flushInput, serial_write, time_sleep, datetime_now,
    set_s, get_s, get_timeout, sys_exit, serial_close, bind, lift_reply, log,
    ret.
  rewrite Ho. cbn [reading timeout s trace initial app].
  rewrite Hf. cbn [reading timeout s trace app].
  rewrite Hw. cbn [reading timeout s trace app].
  rewrite while_reading_closed by reflexivity. fold c.
  cbn [s trace]. unfold setup_events.
  destruct c as [[|]| |]; cbn; rewrite <- ?app_assoc; cbn;
    rewrite ?app_nil_r; reflexivity.
Qed.

(** ** Facts about the pieces *)

(** A byte that occurs in a chunk has a first occurrence. *)
Lemma first_occurrence (b : byte) (d : bytes) :
  In b d -> exists before after, d = before ++ b :: after /\ ~ In b before.
Proof.
  induction d as [|c cs IH]; [intros []|].
  intros Hin. destruct (Byte.byte_eq_dec c b) as [->|Hne].
  - exists [], cs. split; [reflexivity | intros []].
  - destruct Hin as [Heq | Hin]; [contradiction|].
    destruct (IH Hin) as (before & after & -> & Hb).
    exists (c :: before), after. split; [reflexivity|].
    intros [H | H]; [exact (Hne H) | exact (Hb H)].
Qed.

(** [sentinel in d] is membership of the byte 0x03. *)
Lemma contains_sentinel_iff (d : bytes) :
  Py.contains Tools.sentinel d = true <-> In x03 d.
Proof.
  unfold Tools.sentinel. induction d as [|c cs IH].
  - cbn. split; [discriminate | tauto].
  - cbn [Py.contains Py.startswith In]. rewrite orb_true_iff, andb_true_r, IH.
    split.
    + intros [H | H]; [left; symmetry; apply Byte.byte_dec_bl, H | right; exact H].
    + intros [H | H]; [left; apply Byte.byte_dec_lb; congruence | right; exact H].
Qed.

Lemma contains_sentinel_false (d : bytes) :
  Py.contains Tools.sentinel d = false <-> ~ In x03 d.
Proof.
  rewrite <- contains_sentinel_iff. destruct (Py.contains Tools.sentinel d);
    split; intros; congruence.
Qed.

Lemma expired_true (start : Z) (o : iteration) :
  expired start o = true <-> 7000000 < now_reply o - start.
Proof.
  unfold expired, Py.total_seconds_gt, Tools.timeout_s.
  rewrite Z.ltb_lt. lia.
Qed.

Lemma expired_false (start : Z) (o : iteration) :
  expired start o = false <-> now_reply o - start <= 7000000.
Proof.
  unfold expired, Py.total_seconds_gt, Tools.timeout_s.
  rewrite Z.ltb_ge. lia.
Qed.

Lemma stdout_of_app (a b : list event) :
  stdout_of (a ++ b) = stdout_of a ++ stdout_of b.
Proof. apply flat_map_app. Qed.

Lemma chunks_of_app (a b : list event) :
  chunks_of (a ++ b) = chunks_of a ++ chunks_of b.
Proof. apply flat_map_app. Qed.

Lemma stdout_of_forwarded (d : bytes) : stdout_of (forwarded d) = d.
Proof.
  unfold forwarded, Py.len. destruct d as [|c cs]; [reflexivity|].
  cbn [List.length]. rewrite Nat2Z.inj_succ.
  destruct (Z.succ (Z.of_nat (List.length cs)) =? 0) eqn:E.
  - apply Z.eqb_eq in E. lia.
  - cbn [negb stdout_of flat_map]. apply app_nil_r.
Qed.

Lemma stdout_of_turn (o : iteration) (d : bytes) :
  stdout_of (turn_events o d) = d.
Proof.
  unfold turn_events.
  change (stdout_of (EvRead (Returns d) :: forwarded d ++ [EvNow (now_reply o)]))
    with (stdout_of (forwarded d ++ [EvNow (now_reply o)])).
  rewrite stdout_of_app, stdout_of_forwarded. cbn. apply app_nil_r.
Qed.

Lemma chunks_of_forwarded (d : bytes) : chunks_of (forwarded d) = [].
Proof. unfold forwarded. destruct (negb (Py.len d =? 0)); reflexivity. Qed.

Lemma chunks_of_turn (o : iteration) (d : bytes) :
  chunks_of (turn_events o d) = [d].
Proof.
  unfold turn_events.
  change (chunks_of (EvRead (Returns d) :: forwarded d ++ [EvNow (now_reply o)]))
    with (d :: chunks_of (forwarded d ++ [EvNow (now_reply o)])).
  rewrite chunks_of_app, chunks_of_forwarded. reflexivity.
Qed.

Lemma stdout_of_setup (e : env) : stdout_of (setup_events e) = [].
Proof. reflexivity. Qed.

Lemma stdout_of_closing (c : completion bool) : stdout_of (closing c) = [].
Proof. destruct c; reflexivity. Qed.

Lemma chunks_of_setup (e : env) : chunks_of (setup_events e) = [].
Proof. reflexivity. Qed.

Lemma chunks_of_closing (c : completion bool) : chunks_of (closing c) = [].
Proof. destruct c; reflexivity. Qed.

(** Quiet turns go by: the loop carries on with the rest of the script. *)
Lemma loop_quiet_prefix (start : Z) (pre rest : list iteration) :
  Forall (quiet start) pre ->
  loop_end start (pre ++ rest) = loop_end start rest /\
  stdout_of (loop_events start (pre ++ rest)) =
    List.concat (map chunk pre) ++ stdout_of (loop_events start rest) /\
  chunks_of (loop_events start (pre ++ rest)) =
    map chunk pre ++ chunks_of (loop_events start rest).
Proof.
  induction 1 as [|o pre (d & Hr & Hs & Hw) _ (IHe & IHo & IHc)];
    [repeat split; reflexivity|].
  apply contains_sentinel_false in Hs. apply expired_false in Hw.
  cbn [app loop_end loop_events map List.concat]. unfold chunk at 1 3, stops.
  rewrite Hr, Hw, Hs. cbn [orb]. split; [exact IHe|]. split.
  - rewrite stdout_of_app, stdout_of_turn, IHo, app_assoc. reflexivity.
  - rewrite chunks_of_app, chunks_of_turn, IHc. reflexivity.
Qed.

Lemma loop_events_quiet_app (start : Z) (pre rest : list iteration) :
  Forall (quiet start) pre ->
  loop_events start (pre ++ rest) =
    loop_events start pre ++ loop_events start rest.
Proof.
  induction 1 as [|o pre (d & Hr & Hs & Hw) _ IH]; [reflexivity|].
  apply contains_sentinel_false in Hs. apply expired_false in Hw.
  cbn [app loop_events]. rewrite Hr. unfold stops. rewrite Hs, Hw. cbn [orb].
  rewrite IH, app_assoc. reflexivity.
Qed.

Lemma exit_of_setup_ok (e : env) :
  setup_ok e ->
  exit_of e = outcome_of (status_of (loop_end (start_now e) (iterations e))).
Proof. intros H. unfold exit_of. rewrite (run_setup_ok e H). reflexivity. Qed.

Lemma events_setup_ok (e : env) :
  setup_ok e ->
  events e = setup_events e ++ loop_events (start_now e) (iterations e)
               ++ closing (loop_end (start_now e) (iterations e)).
Proof. intros H. unfold events. rewrite (run_setup_ok e H). reflexivity. Qed.

Lemma stdout_setup_ok (e : env) :
  setup_ok e ->
  stdout e = stdout_of (loop_events (start_now e) (iterations e)).
Proof.
  intros H. unfold stdout. rewrite (events_setup_ok e H).
  rewrite !stdout_of_app, stdout_of_setup, stdout_of_closing.
  cbn [app]. apply app_nil_r.
Qed.

(** ** The claims *)

(** C1.  A run that reads, within 7 s of the capture start, a chunk
    containing the byte 0x03 exits with status 0, and standard output
    holds the bytes received up to and including the first 0x03,
    followed by the rest of that chunk. *)
Theorem sentinel_within_window_exits_0
    (e : env) (pre rest : list iteration) (o : iteration) (d : bytes) :
  setup_ok e ->
  iterations e = pre ++ o :: rest ->
  Forall (quiet (start_now e)) pre ->
  read_reply o = Returns d ->
  In x03 d ->
  now_reply o - start_now e <= 7000000 ->
  exit_of e = Exited 0 /\
  exists before after : bytes,
    d = before ++ x03 :: after /\
    ~ In x03 (List.concat (map chunk pre) ++ before) /\
    stdout e = (List.concat (map chunk pre) ++ before ++ [x03]) ++ after.
Proof.
  intros Hok Hit Hpre Hr Hs Hw.
  destruct (loop_quiet_prefix (start_now e) pre (o :: rest) Hpre)
    as (He & Ho & _).
  assert (Hc : Py.contains Tools.sentinel d = true)
    by (apply contains_sentinel_iff; exact Hs).
  apply expired_false in Hw.
  split.
  - rewrite (exit_of_setup_ok e Hok), Hit, He. cbn [loop_end].
    rewrite Hr, Hw, Hc. reflexivity.
  - destruct (first_occurrence x03 d Hs) as (before & after & Hd & Hb).
    exists before, after. split; [exact Hd|]. split.
    + rewrite in_app_iff. intros [H | H]; [|exact (Hb H)].
      apply in_concat in H. destruct H as (c & Hc1 & Hc2).
      apply in_map_iff in Hc1. destruct Hc1 as (q & <- & Hq).
      rewrite Forall_forall in Hpre. destruct (Hpre q Hq) as (dq & Hdq & Hn & _).
      unfold chunk in Hc2. rewrite Hdq in Hc2. exact (Hn Hc2).
    + rewrite (stdout_setup_ok e Hok), Hit, Ho. cbn [loop_events].
      rewrite Hr. unfold stops. rewrite Hc. cbn [orb].
      rewrite app_nil_r, stdout_of_turn, Hd, <- !app_assoc. reflexivity.
Qed.

Lemma sentinel_within_window_exits_0_witness :
  exit_of init_ok_world = Exited 0 /\
  exists before after : bytes,
    init_ok_etx = before ++ x03 :: after /\
    ~ In x03 (List.concat (map chunk [mkIteration (Returns []) 100000]) ++ before) /\
    stdout init_ok_world =
      (List.concat (map chunk [mkIteration (Returns []) 100000])
         ++ before ++ [x03]) ++ after.
Proof.
  apply (sentinel_within_window_exits_0 init_ok_world
           [mkIteration (Returns []) 100000] []
           (mkIteration (Returns init_ok_etx) 900000) init_ok_etx).
  - repeat split; reflexivity.
  - reflexivity.
  - constructor; [|constructor]. exists []. split; [reflexivity|].
    split; [intros [] | cbn; lia].
  - reflexivity.
  - unfold init_ok_etx. do 7 right. left. reflexivity.
  - cbn. lia.
Defined.

(** C2.  A run in which the clock passes 7 s since the capture start
    before any chunk with the byte 0x03 has been read exits with status
    1; if every read of the run returned no byte, standard output is
    empty. *)
Theorem deadline_without_sentinel_exits_1
    (e : env) (pre rest : list iteration) (o : iteration) (d : bytes) :
  setup_ok e ->
  iterations e = pre ++ o :: rest ->
  Forall (quiet (start_now e)) pre ->
  read_reply o = Returns d ->
  7000000 < now_reply o - start_now e ->
  exit_of e = Exited 1 /\
  (Forall (fun x => read_reply x = Returns []) (pre ++ [o]) -> stdout e = []).
Proof.
  intros Hok Hit Hpre Hr Hw.
  destruct (loop_quiet_prefix (start_now e) pre (o :: rest) Hpre)
    as (He & Ho & _).
  apply expired_true in Hw. split.
  - rewrite (exit_of_setup_ok e Hok), Hit, He. cbn [loop_end].
    rewrite Hr, Hw. reflexivity.
  - intros Hempty. rewrite (stdout_setup_ok e Hok), Hit, Ho.
    cbn [loop_events]. rewrite Hr. unfold stops. rewrite Hw, orb_true_r.
    rewrite app_nil_r, stdout_of_turn.
    apply Forall_app in Hempty. destruct Hempty as [Hp Hl].
    inversion Hl as [|? ? Hd _]; subst. rewrite Hr in Hd.
    injection Hd as ->. rewrite app_nil_r.
    clear - Hp. induction Hp as [|q pre Hq _ IH]; [reflexivity|].
    cbn [map List.concat]. unfold chunk at 1. rewrite Hq. exact IH.
Qed.

Lemma deadline_without_sentinel_exits_1_witness :
  exit_of silent_world = Exited 1 /\
  (Forall (fun x => read_reply x = Returns [])
          ([mkIteration (Returns []) 100000] ++ [mkIteration (Returns []) 8000000]) ->
   stdout silent_world = []).
Proof.
  apply (deadline_without_sentinel_exits_1 silent_world
           [mkIteration (Returns []) 100000] []
           (mkIteration (Returns []) 8000000) []).
  - repeat split; reflexivity.
  - reflexivity.
  - constructor; [|constructor]. exists []. split; [reflexivity|].
    split; [intros [] | cbn; lia].
  - reflexivity.
  - cbn. lia.
Defined.

(** C3, as stated: whenever the chunk just read contains the sentinel
    the run succeeds, however much time has gone by.  The script tests
    the clock in every turn, also in the one that saw the sentinel
    (lines 48-52 are not under an [else]): here the only chunk is the
    sentinel itself, the clock shows 8 s, and the status is 1. *)
Lemma late_sentinel_exits_1 :
  setup_ok late_sentinel /\
  iterations late_sentinel = [] ++ mkIteration (Returns [x03]) 8000000 :: [] /\
  Forall (quiet (start_now late_sentinel)) [] /\
  In x03 [x03] /\
  exit_of late_sentinel = Exited 1 /\
  exit_of late_sentinel <> Exited 0.
Proof.
  split; [repeat split; reflexivity|].
  split; [reflexivity|]. split; [constructor|].
  split; [left; reflexivity|].
  split; [reflexivity | discriminate].
Qed.

(** C3, amended.  In the turn in which the chunk just read contains the
    sentinel the run stops reading: that chunk is the last one read.
    The elapsed time is tested in that turn as in any other, and the
    status is 0 if the clock shows at most 7 s since the capture start
    and 1 if it shows more. *)
Theorem sentinel_turn_stops_and_deadline_decides
    (e : env) (pre rest : list iteration) (o : iteration) (d : bytes) :
  setup_ok e ->
  iterations e = pre ++ o :: rest ->
  Forall (quiet (start_now e)) pre ->
  read_reply o = Returns d ->
  In x03 d ->
  chunks_of (events e) = map chunk pre ++ [d] /\
  (now_reply o - start_now e <= 7000000 -> exit_of e = Exited 0) /\
  (7000000 < now_reply o - start_now e -> exit_of e = Exited 1).
Proof.
  intros Hok Hit Hpre Hr Hs.
  destruct (loop_quiet_prefix (start_now e) pre (o :: rest) Hpre)
    as (He & _ & Hk).
  apply contains_sentinel_iff in Hs.
  split; [|split].
  - rewrite (events_setup_ok e Hok), !chunks_of_app, chunks_of_setup,
      chunks_of_closing, Hit, Hk.
    cbn [loop_events app]. rewrite Hr. unfold stops. rewrite Hs. cbn [orb].
    rewrite !app_nil_r, chunks_of_turn. reflexivity.
  - intros Hw. apply expired_false in Hw.
    rewrite (exit_of_setup_ok e Hok), Hit, He. cbn [loop_end].
    rewrite Hr, Hw, Hs. reflexivity.
  - intros Hw. apply expired_true in Hw.
    rewrite (exit_of_setup_ok e Hok), Hit, He. cbn [loop_end].
    rewrite Hr, Hw. reflexivity.
Qed.

Lemma sentinel_turn_stops_and_deadline_decides_witness :
  chunks_of (events late_sentinel) = map chunk [] ++ [[x03]] /\
  (now_reply (mkIteration (Returns [x03]) 8000000) - start_now late_sentinel
     <= 7000000 -> exit_of late_sentinel = Exited 0) /\
  (7000000 <
     now_reply (mkIteration (Returns [x03]) 8000000) - start_now late_sentinel ->
   exit_of late_sentinel = Exited 1).
Proof.
  apply (sentinel_turn_stops_and_deadline_decides late_sentinel [] []
           (mkIteration (Returns [x03]) 8000000) [x03]).
  - repeat split; reflexivity.
  - reflexivity.
  - constructor.
  - reflexivity.
  - left. reflexivity.
Defined.

(** *** Closing the port *)

Lemma closes_app (a b : list event) : closes (a ++ b) = (closes a + closes b)%nat.
Proof. unfold closes. rewrite filter_app. apply length_app. Qed.

Lemma closes_forwarded (d : bytes) : closes (forwarded d) = 0%nat.
Proof. unfold forwarded. destruct (negb (Py.len d =? 0)); reflexivity. Qed.

Lemma closes_turn (o : iteration) (d : bytes) : closes (turn_events o d) = 0%nat.
Proof.
  unfold turn_events.
  change (closes (EvRead (Returns d) :: forwarded d ++ [EvNow (now_reply o)]))
    with (closes (forwarded d ++ [EvNow (now_reply o)])).
  rewrite closes_app, closes_forwarded. reflexivity.
Qed.

(** The loop never closes the port. *)
Lemma closes_loop (start : Z) (script : list iteration) :
  closes (loop_events start script) = 0%nat.
Proof.
  induction script as [|o rest IH]; [reflexivity|].
  cbn [loop_events]. destruct (read_reply o) as [d|]; [|reflexivity].
  rewrite closes_app, closes_turn.
  destruct (stops start o d); [reflexivity | exact IH].
Qed.

(** C4.  When the run is over and the port had been opened, whether the
    loop ended on the sentinel, on the deadline, or an exception left
    the [try] body after the opening, [s.close()] has been called
    exactly once, as the last call of the run; when the opening itself
    raised, it has not been called. *)
Theorem port_closed_exactly_once (e : env) :
  exit_of e <> StillReading ->
  (open_reply e = Returns tt ->
   closes (events e) = 1%nat /\ exists tr, events e = tr ++ [EvClose]) /\
  (open_reply e = Raises -> closes (events e) = 0%nat).
Proof.
  intros Hover.
  destruct (reply_unit (open_reply e)) as [Ho | Ho].
  2:{ split; [rewrite Ho; discriminate|]. intros _.
      unfold events. rewrite (run_open_raises e Ho). reflexivity. }
  split; [intros _ | rewrite Ho; discriminate].
  destruct (reply_unit (flush_reply e)) as [Hf | Hf].
  2:{ unfold events. rewrite (run_flush_raises e Ho Hf). split; [reflexivity|].
      exists [EvOpen device; EvFlushInput]. reflexivity. }
  destruct (reply_unit (write_reply e)) as [Hw | Hw].
  2:{ unfold events. rewrite (run_write_raises e Ho Hf Hw). split; [reflexivity|].
      exists [EvOpen device; EvFlushInput; EvSleep 500; EvWrite [x20]].
      reflexivity. }
  assert (Hok : setup_ok e) by (repeat split; assumption).
  rewrite (exit_of_setup_ok e Hok) in Hover.
  rewrite (events_setup_ok e Hok).
  destruct (loop_end (start_now e) (iterations e)) as [t| |] eqn:El;
    [| |exfalso; apply Hover; reflexivity]; cbn [closing].
  - split.
    + rewrite !closes_app, closes_loop. reflexivity.
    + exists (setup_events e ++ loop_events (start_now e) (iterations e)).
      rewrite <- app_assoc. reflexivity.
  - split.
    + rewrite !closes_app, closes_loop. reflexivity.
    + exists (setup_events e ++ loop_events (start_now e) (iterations e)).
      rewrite <- app_assoc. reflexivity.
Qed.

Lemma port_closed_exactly_once_witness :
  (open_reply broken_read = Returns tt ->
   closes (events broken_read) = 1%nat /\
   exists tr, events broken_read = tr ++ [EvClose]) /\
  (open_reply broken_read = Raises -> closes (events broken_read) = 0%nat).
Proof.
  apply (port_closed_exactly_once broken_read). vm_compute. discriminate.
Defined.

(** *** Where a read sits in the trace *)

Lemma split_last (A : Type) (a l1 l2 : list A) (x y : A) :
  x <> y -> a ++ [x] = l1 ++ y :: l2 ->
  exists l2', l2 = l2' ++ [x] /\ a = l1 ++ y :: l2'.
Proof.
  intros Hne. induction l2 as [|z l2' _] using rev_ind; intros H.
  - apply app_inj_tail in H. destruct H as [_ H]. contradiction.
  - rewrite app_comm_cons, app_assoc in H. apply app_inj_tail in H.
    destruct H as [Ha Hx]. subst z. exists l2'. split; [reflexivity | exact Ha].
Qed.

Lemma forwarded_nonempty (c : byte) (cs : bytes) :
  forwarded (c :: cs) = [EvStdout (c :: cs)].
Proof.
  unfold forwarded, Py.len. cbn [List.length]. rewrite Nat2Z.inj_succ.
  destruct (Z.succ (Z.of_nat (List.length cs)) =? 0) eqn:E; [|reflexivity].
  apply Z.eqb_eq in E. lia.
Qed.

(** In the loop, a read that returned [d] is followed by the forwarding
    of [d] and the clock reading of its turn; if [d] holds the sentinel
    nothing else follows and the loop has ended. *)
Lemma loop_events_read_split (start : Z) (script : list iteration) :
  forall (l1 : list event) (d : bytes) (l2 : list event),
    loop_events start script = l1 ++ EvRead (Returns d) :: l2 ->
    exists t tail,
      l2 = forwarded d ++ EvNow t :: tail /\
      (In x03 d -> tail = [] /\ exists b, loop_end start script = Normal b).
Proof.
  induction script as [|o rest IH]; intros l1 d l2 H.
  - destruct l1; discriminate H.
  - cbn [loop_events loop_end] in *.
    destruct (read_reply o) as [d0|] eqn:Hr.
    + unfold turn_events in H. cbn [app] in H.
      destruct l1 as [|x l1]; cbn [app] in H.
      * injection H as Hd Ht. subst d0.
        exists (now_reply o), (if stops start o d then [] else loop_events start rest).
        split; [rewrite <- Ht, <- app_assoc; reflexivity|].
        intros Hs. apply contains_sentinel_iff in Hs. unfold stops.
        rewrite Hs. cbn [orb]. split; [reflexivity|].
        destruct (expired start o); eexists; reflexivity.
      * injection H as _ H.
        assert (Ht : exists l1', (if stops start o d0 then []
                                  else loop_events start rest)
                                 = l1' ++ EvRead (Returns d) :: l2).
        { unfold forwarded in H. destruct (negb (Py.len d0 =? 0));
            cbn [app] in H.
          - peel H l1. peel H l1. exists l1. exact H.
          - peel H l1. exists l1. exact H. }
        destruct Ht as (l1' & Ht). unfold stops in Ht.
        destruct (expired start o) eqn:He.
        { rewrite orb_true_r in Ht. destruct l1'; discriminate Ht. }
        rewrite orb_false_r in Ht.
        destruct (Py.contains Tools.sentinel d0) eqn:Hc.
        { destruct l1'; discriminate Ht. }
        exact (IH l1' d l2 Ht).
    + destruct l1 as [|x l1]; [discriminate H|].
      destruct l1; discriminate H.
Qed.

(** In a run, every read comes after the five calls of the set-up, and
    what follows it is the rest of the loop and then the [finally]
    block. *)
Lemma events_read_split (e : env) (l1 l2 : list event) (r : reply bytes) :
  events e = l1 ++ EvRead r :: l2 ->
  exists l1' l2',
    l1 = setup_events e ++ l1' /\
    loop_events (start_now e) (iterations e) = l1' ++ EvRead r :: l2' /\
    l2 = l2' ++ closing (loop_end (start_now e) (iterations e)).
Proof.
  intros H.
  destruct (reply_unit (open_reply e)) as [Ho | Ho].
  2:{ unfold events in H. rewrite (run_open_raises e Ho) in H. cbn [fst trace] in H.
      peel H l1. destruct l1; discriminate H. }
  destruct (reply_unit (flush_reply e)) as [Hf | Hf].
  2:{ unfold events in H. rewrite (run_flush_raises e Ho Hf) in H.
      cbn [fst trace] in H. do 3 peel H l1. destruct l1; discriminate H. }
  destruct (reply_unit (write_reply e)) as [Hw | Hw].
  2:{ unfold events in H. rewrite (run_write_raises e Ho Hf Hw) in H.
      cbn [fst trace] in H. do 5 peel H l1. destruct l1; discriminate H. }
  assert (Hok : setup_ok e) by (repeat split; assumption).
  rewrite (events_setup_ok e Hok) in H. unfold setup_events in *.
  cbn [app] in H. do 5 peel H l1.
  destruct (loop_end (start_now e) (iterations e)) as [b| |]; cbn [closing] in *.
  - apply split_last in H; [|discriminate]. destruct H as (l2' & -> & H).
    exists l1, l2'. repeat split; [exact H].
  - apply split_last in H; [|discriminate]. destruct H as (l2' & -> & H).
    exists l1, l2'. repeat split; [exact H].
  - rewrite app_nil_r in H. exists l1, l2. rewrite app_nil_r.
    repeat split; [exact H].
Qed.

(** After the read of a chunk with the sentinel the run makes three
    more calls: the forwarding of that chunk, the clock reading of the
    turn, and the closing of the port. *)
Lemma after_sentinel_read (e : env) (l1 l2 : list event) (d : bytes) :
  events e = l1 ++ EvRead (Returns d) :: l2 ->
  In x03 d ->
  exists t, l2 = [EvStdout d; EvNow t; EvClose].
Proof.
  intros H Hs. destruct (events_read_split e l1 l2 (Returns d) H)
    as (l1' & l2' & _ & Hl & ->).
  destruct (loop_events_read_split _ _ _ _ _ Hl) as (t & tail & -> & Hend).
  destruct (Hend Hs) as (-> & b & ->). exists t.
  destruct d as [|c cs]; [destruct Hs|]. rewrite forwarded_nonempty. reflexivity.
Qed.

Lemma concat_filter_single (d : bytes) : List.concat (filter nonempty [d]) = d.
Proof.
  destruct d as [|c cs]; [reflexivity|].
  cbn [filter]. unfold nonempty, Py.len. cbn [List.length].
  rewrite Nat2Z.inj_succ.
  destruct (Z.succ (Z.of_nat (List.length cs)) =? 0) eqn:E.
  - apply Z.eqb_eq in E. lia.
  - cbn [negb List.concat]. apply app_nil_r.
Qed.

Lemma stdout_chunks_loop (start : Z) (script : list iteration) :
  stdout_of (loop_events start script) =
    List.concat (filter nonempty (chunks_of (loop_events start script))).
Proof.
  induction script as [|o rest IH]; [reflexivity|].
  cbn [loop_events]. destruct (read_reply o) as [d|]; [|reflexivity].
  rewrite stdout_of_app, chunks_of_app, stdout_of_turn, chunks_of_turn.
  rewrite filter_app, concat_app, concat_filter_single.
  destruct (stops start o d); [reflexivity|]. rewrite IH. reflexivity.
Qed.

(** C5.  In every run standard output is the concatenation, in the
    order read, of the non-empty chunks the reads returned, nothing
    else and nothing changed; and the read of a chunk that holds the
    sentinel is followed at once by the writing of that whole chunk. *)
Theorem stdout_is_the_chunks_in_order (e : env) :
  stdout e = List.concat (filter nonempty (chunks_of (events e))) /\
  forall (l1 l2 : list event) (d : bytes),
    events e = l1 ++ EvRead (Returns d) :: l2 ->
    In x03 d ->
    exists l3, l2 = EvStdout d :: l3.
Proof.
  split.
  - destruct (reply_unit (open_reply e)) as [Ho | Ho].
    2:{ unfold stdout, events. rewrite (run_open_raises e Ho). reflexivity. }
    destruct (reply_unit (flush_reply e)) as [Hf | Hf].
    2:{ unfold stdout, events. rewrite (run_flush_raises e Ho Hf). reflexivity. }
    destruct (reply_unit (write_reply e)) as [Hw | Hw].
    2:{ unfold stdout, events. rewrite (run_write_raises e Ho Hf Hw).
        reflexivity. }
    assert (Hok : setup_ok e) by (repeat split; assumption).
    rewrite (stdout_setup_ok e Hok), (events_setup_ok e Hok).
    rewrite !chunks_of_app, chunks_of_setup, chunks_of_closing.
    cbn [app]. rewrite app_nil_r. apply stdout_chunks_loop.
  - intros l1 l2 d H Hs. destruct (after_sentinel_read e l1 l2 d H Hs) as (t & ->).
    eexists. reflexivity.
Qed.

(** C10.  Once a chunk that holds the sentinel has been read, the run
    reads no more and writes nothing more to standard output than that
    chunk: what follows the read is the writing of the chunk, the clock
    reading of the turn and the closing of the port. *)
Theorem nothing_read_or_written_after_sentinel
    (e : env) (l1 l2 : list event) (d : bytes) :
  events e = l1 ++ EvRead (Returns d) :: l2 ->
  In x03 d ->
  (exists t, l2 = [EvStdout d; EvNow t; EvClose]) /\
  filter is_read l2 = [] /\
  chunks_of (events e) = chunks_of l1 ++ [d] /\
  stdout e = stdout_of l1 ++ d.
Proof.
  intros H Hs. destruct (after_sentinel_read e l1 l2 d H Hs) as (t & ->).
  split; [exists t; reflexivity|]. split; [reflexivity|].
  unfold stdout. rewrite H, chunks_of_app, stdout_of_app.
  split; [reflexivity|]. cbn. rewrite !app_nil_r. reflexivity.
Qed.

Lemma stdout_is_the_chunks_in_order_witness :
  exists l3,
    [EvStdout init_ok_etx; EvNow 900000; EvClose] = EvStdout init_ok_etx :: l3.
Proof.
  apply (proj2 (stdout_is_the_chunks_in_order init_ok_world)
           (setup_events init_ok_world ++ [EvRead (Returns []); EvNow 100000])
           [EvStdout init_ok_etx; EvNow 900000; EvClose] init_ok_etx).
  - reflexivity.
  - unfold init_ok_etx. do 7 right. left. reflexivity.
Defined.

Lemma nothing_read_or_written_after_sentinel_witness :
  (exists t, [EvStdout [x03; x0d; x0a]; EvNow 200000; EvClose]
             = [EvStdout [x03; x0d; x0a]; EvNow t; EvClose]) /\
  filter is_read [EvStdout [x03; x0d; x0a]; EvNow 200000; EvClose] = [] /\
  chunks_of (events etx_then_more) =
    chunks_of (setup_events etx_then_more ++
               [EvRead (Returns [x6f; x6b]); EvStdout [x6f; x6b]; EvNow 100000])
      ++ [[x03; x0d; x0a]] /\
  stdout etx_then_more =
    stdout_of (setup_events etx_then_more ++
               [EvRead (Returns [x6f; x6b]); EvStdout [x6f; x6b]; EvNow 100000])
      ++ [x03; x0d; x0a].
Proof.
  apply (nothing_read_or_written_after_sentinel etx_then_more
           (setup_events etx_then_more ++
            [EvRead (Returns [x6f; x6b]); EvStdout [x6f; x6b]; EvNow 100000])
           [EvStdout [x03; x0d; x0a]; EvNow 200000; EvClose]
           [x03; x0d; x0a]).
  - reflexivity.
  - left. reflexivity.
Defined.

(** *** The set-up and the deadline *)

Lemma loop_end_timeout (start : Z) (script : list iteration) :
  loop_end start script = Normal true ->
  exists o, In o script /\ expired start o = true.
Proof.
  induction script as [|o rest IH]; [discriminate|].
  cbn [loop_end]. destruct (read_reply o) as [d|]; [|discriminate].
  destruct (expired start o) eqn:He.
  - intros _. exists o. split; [left; reflexivity | exact He].
  - destruct (Py.contains Tools.sentinel d); [discriminate|].
    intros H. destruct (IH H) as (q & Hq & Hx). exists q.
    split; [right; exact Hq | exact Hx].
Qed.

(** C6, as stated: a run whose response starts with the sentinel exits
    with status 0.  Here the one byte read is the sentinel, and
    7.000001 s are on the clock when the turn tests it: the status
    is 1. *)
Lemma late_first_byte_exits_1 :
  setup_ok late_first_byte /\
  iterations late_first_byte = [mkIteration (Returns (x03 :: [])) 7000001] /\
  events late_first_byte =
    [EvOpen device; EvFlushInput; EvSleep 500; EvWrite [x20]; EvNow 0;
     EvRead (Returns [x03]); EvStdout [x03]; EvNow 7000001; EvClose] /\
  exit_of late_first_byte = Exited 1 /\
  exit_of late_first_byte <> Exited 0.
Proof.
  split; [repeat split; reflexivity|].
  split; [reflexivity|]. split; [reflexivity|].
  split; [reflexivity | discriminate].
Qed.

Lemma idle_turns (start : Z) (pre : list iteration) :
  Forall (idle start) pre ->
  Forall (quiet start) pre /\
  loop_events start pre = idle_events pre /\
  List.concat (map chunk pre) = [].
Proof.
  induction 1 as [|q pre [Hr Hw] _ (IHq & IHe & IHc)];
    [repeat split; constructor|].
  split; [|split].
  - constructor; [|exact IHq]. exists []. split; [exact Hr|].
    split; [intros [] | exact Hw].
  - apply expired_false in Hw. unfold idle_events in *.
    cbn [flat_map loop_events]. rewrite Hr. unfold stops, turn_events, forwarded.
    rewrite Hw. cbn. rewrite IHe. reflexivity.
  - cbn [map List.concat]. unfold chunk at 1. rewrite Hr. exact IHc.
Qed.

(** C6, amended.  Before any read the run has opened the port, flushed
    its input, slept 0.5 s, written the one wake byte and read the
    clock, in this order; the answer of that clock reading is the
    instant the deadline is counted from (a run exits with status 1
    only if some turn read the clock more than 7 s after it).  A
    response whose first byte is the sentinel, read at once or after
    turns that read nothing, is therefore read after the sleep and the
    wake byte, it is forwarded whole, and the run exits with status 0
    when the clock of the turn that reads it shows at most 7 s since
    that instant. *)
Theorem setup_precedes_capture (e : env) :
  (forall (l1 l2 : list event) (r : reply bytes),
     events e = l1 ++ EvRead r :: l2 ->
     exists l1',
       l1 = [EvOpen device; EvFlushInput; EvSleep 500; EvWrite [x20];
             EvNow (start_now e)] ++ l1') /\
  (forall (pre rest : list iteration) (o : iteration) (d' : bytes),
     setup_ok e ->
     iterations e = pre ++ o :: rest ->
     Forall (idle (start_now e)) pre ->
     read_reply o = Returns (x03 :: d') ->
     events e =
       [EvOpen device; EvFlushInput; EvSleep 500; EvWrite [x20];
        EvNow (start_now e)] ++
       idle_events pre ++
       [EvRead (Returns (x03 :: d')); EvStdout (x03 :: d');
        EvNow (now_reply o); EvClose] /\
     stdout e = x03 :: d' /\
     (now_reply o - start_now e <= 7000000 -> exit_of e = Exited 0)) /\
  (exit_of e = Exited 1 ->
   exists o, In o (iterations e) /\ 7000000 < now_reply o - start_now e).
Proof.
  split; [|split].
  - intros l1 l2 r H.
    destruct (events_read_split e l1 l2 r H) as (l1' & _ & -> & _).
    exists l1'. reflexivity.
  - intros pre rest o d' Hok Hit Hidle Hr.
    destruct (idle_turns _ _ Hidle) as (Hq & Hi & Hz).
    destruct (loop_quiet_prefix (start_now e) pre (o :: rest) Hq)
      as (He & Ho & _).
    assert (Hc : Py.contains Tools.sentinel (x03 :: d') = true)
      by (apply contains_sentinel_iff; left; reflexivity).
    assert (Hcl : closing (loop_end (start_now e) (o :: rest)) = [EvClose]).
    { cbn [loop_end]. rewrite Hr, Hc.
      destruct (expired (start_now e) o); reflexivity. }
    assert (Hev : loop_events (start_now e) (o :: rest) =
                  [EvRead (Returns (x03 :: d')); EvStdout (x03 :: d');
                   EvNow (now_reply o)]).
    { cbn [loop_events]. rewrite Hr. unfold stops. rewrite Hc. cbn [orb].
      unfold turn_events. rewrite forwarded_nonempty, app_nil_r.
      reflexivity. }
    split; [|split].
    + rewrite (events_setup_ok e Hok), Hit, He, Hcl.
      rewrite (loop_events_quiet_app _ _ _ Hq), Hi, Hev.
      unfold setup_events. rewrite <- !app_assoc. reflexivity.
    + rewrite (stdout_setup_ok e Hok), Hit, Ho, Hz. cbn [loop_events app].
      rewrite Hr. unfold stops. rewrite Hc. cbn [orb].
      rewrite app_nil_r. apply stdout_of_turn.
    + intros Hw. apply expired_false in Hw.
      rewrite (exit_of_setup_ok e Hok), Hit, He. cbn [loop_end].
      rewrite Hr, Hw, Hc. reflexivity.
  - intros Hx.
    destruct (reply_unit (open_reply e)) as [Ho | Ho].
    2:{ unfold exit_of in Hx. rewrite (run_open_raises e Ho) in Hx.
        discriminate Hx. }
    destruct (reply_unit (flush_reply e)) as [Hf | Hf].
    2:{ unfold exit_of in Hx. rewrite (run_flush_raises e Ho Hf) in Hx.
        discriminate Hx. }
    destruct (reply_unit (write_reply e)) as [Hw | Hw].
    2:{ unfold exit_of in Hx. rewrite (run_write_raises e Ho Hf Hw) in Hx.
        discriminate Hx. }
    assert (Hok : setup_ok e) by (repeat split; assumption).
    rewrite (exit_of_setup_ok e Hok) in Hx.
    destruct (loop_end (start_now e) (iterations e)) as [[|]| |] eqn:El;
      try discriminate Hx.
    destruct (loop_end_timeout _ _ El) as (o & Hin & He).
    exists o. split; [exact Hin | apply expired_true; exact He].
Qed.

Lemma setup_precedes_capture_witness :
  events slow_device =
    [EvOpen device; EvFlushInput; EvSleep 500; EvWrite [x20];
     EvNow (start_now slow_device)] ++
    idle_events [mkIteration (Returns []) 5100000] ++
    [EvRead (Returns [x03]); EvStdout [x03];
     EvNow (now_reply (mkIteration (Returns [x03]) 5200000)); EvClose] /\
  stdout slow_device = [x03] /\
  (now_reply (mkIteration (Returns [x03]) 5200000) - start_now slow_device
     <= 7000000 -> exit_of slow_device = Exited 0).
Proof.
  apply (proj1 (proj2 (setup_precedes_capture slow_device))
           [mkIteration (Returns []) 5100000] []
           (mkIteration (Returns [x03]) 5200000) []).
  - repeat split; reflexivity.
  - reflexivity.
  - constructor; [split; [reflexivity | cbn; lia] | constructor].
  - reflexivity.
Defined.

(** *** Same observations, same result *)

Lemma loop_same_observations (s1 s2 : Z) (its1 : list iteration) :
  forall its2 : list iteration,
    map read_reply its1 = map read_reply its2 ->
    map (elapsed_us s1) its1 = map (elapsed_us s2) its2 ->
    loop_end s1 its1 = loop_end s2 its2 /\
    stdout_of (loop_events s1 its1) = stdout_of (loop_events s2 its2).
Proof.
  induction its1 as [|o1 its1 IH]; intros [|o2 its2] Hr Ht;
    try discriminate; [split; reflexivity|].
  cbn [map] in Hr, Ht. injection Hr as Hr1 Hr. injection Ht as Ht1 Ht.
  destruct (IH its2 Hr Ht) as [IHe IHo].
  assert (Hx : expired s1 o1 = expired s2 o2).
  { unfold expired. unfold elapsed_us in Ht1. rewrite Ht1. reflexivity. }
  cbn [loop_end loop_events]. rewrite <- Hr1, <- Hx.
  destruct (read_reply o1) as [d|]; [|split; reflexivity].
  unfold stops. rewrite <- Hx. rewrite !stdout_of_app, !stdout_of_turn.
  destruct (expired s1 o1); [rewrite orb_true_r; split; reflexivity|].
  rewrite orb_false_r.
  destruct (Py.contains Tools.sentinel d); [split; reflexivity|].
  split; [exact IHe | rewrite IHo; reflexivity].
Qed.

(** C7.  Two runs in which the calls are answered alike (the same calls
    raise, the reads return the same chunks, and the clock shows the
    same elapsed times since the capture start, whatever the time of
    day) write the same bytes to standard output and end with the same
    status. *)
Theorem same_observations_same_result (e1 e2 : env) :
  open_reply e1 = open_reply e2 ->
  flush_reply e1 = flush_reply e2 ->
  write_reply e1 = write_reply e2 ->
  map read_reply (iterations e1) = map read_reply (iterations e2) ->
  map (elapsed_us (start_now e1)) (iterations e1) =
    map (elapsed_us (start_now e2)) (iterations e2) ->
  stdout e1 = stdout e2 /\ exit_of e1 = exit_of e2.
Proof.
  intros Ho Hf Hw Hr Ht.
  destruct (reply_unit (open_reply e1)) as [Ho1 | Ho1].
  2:{ assert (Ho2 : open_reply e2 = Raises) by congruence.
      unfold stdout, events, exit_of.
      rewrite (run_open_raises e1 Ho1), (run_open_raises e2 Ho2).
      split; reflexivity. }
  assert (Ho2 : open_reply e2 = Returns tt) by congruence.
  destruct (reply_unit (flush_reply e1)) as [Hf1 | Hf1].
  2:{ assert (Hf2 : flush_reply e2 = Raises) by congruence.
      unfold stdout, events, exit_of.
      rewrite (run_flush_raises e1 Ho1 Hf1), (run_flush_raises e2 Ho2 Hf2).
      split; reflexivity. }
  assert (Hf2 : flush_reply e2 = Returns tt) by congruence.
  destruct (reply_unit (write_reply e1)) as [Hw1 | Hw1].
  2:{ assert (Hw2 : write_reply e2 = Raises) by congruence.
      unfold stdout, events, exit_of.
      rewrite (run_write_raises e1 Ho1 Hf1 Hw1),
        (run_write_raises e2 Ho2 Hf2 Hw2).
      split; reflexivity. }
  assert (Hw2 : write_reply e2 = Returns tt) by congruence.
  assert (Hok1 : setup_ok e1) by (repeat split; assumption).
  assert (Hok2 : setup_ok e2) by (repeat split; assumption).
  destruct (loop_same_observations _ _ _ _ Hr Ht) as [He Hs].
  rewrite (stdout_setup_ok e1 Hok1), (stdout_setup_ok e2 Hok2).
  rewrite (exit_of_setup_ok e1 Hok1), (exit_of_setup_ok e2 Hok2).
  rewrite He, Hs. split; reflexivity.
Qed.

Lemma same_observations_same_result_witness :
  stdout run_morning = stdout run_night /\
  exit_of run_morning = exit_of run_night.
Proof.
  apply (same_observations_same_result run_morning run_night); reflexivity.
Defined.

(** *** The two copies *)

Lemma tests_while_reading (start : Z) (script : list iteration) :
  forall st : state,
    Tests.while_reading start script st = Tools.while_reading start script st.
Proof.
  induction script as [|o rest IH]; intros st; [reflexivity|].
  cbn [Tests.while_reading Tools.while_reading].
  destruct (reading st); [|reflexivity].
  unfold bind. change (Tests.loop_body start o st) with (Tools.loop_body start o st).
  destruct (Tools.loop_body start o st) as [st' [[]| |]];
    [apply IH | reflexivity | reflexivity].
Qed.

Lemma tests_main (e : env) : Tests.main e initial = Tools.main e initial.
Proof.
  unfold Tests.main, Tools.main, try_finally.
  unfold bind at 1 2 3 4 5 6 7 9 10 11 12 13 14 15.
  unfold serial_Serial, flushInput, serial_write, time_sleep, datetime_now,
    set_s, bind, lift_reply, log, ret.
  destruct (open_reply e) as [[]|]; [|reflexivity].
  cbn [reading timeout s trace initial app].
  destruct (flush_reply e) as [[]|]; [|reflexivity].
  cbn [reading timeout s trace app].
  destruct (write_reply e) as [[]|]; [|reflexivity].
  cbn [reading timeout s trace app].
  rewrite tests_while_reading. reflexivity.
Qed.

(** C8.  The copy under tests/ and the script under tools/ behave
    alike in every world: the same calls in the same order, hence the
    same bytes on standard output, and the same exit status. *)
Theorem copies_agree (e : env) :
  trace (fst (run_tests e)) = events e /\
  stdout_of (trace (fst (run_tests e))) = stdout e /\
  outcome_of (snd (run_tests e)) = exit_of e.
Proof.
  unfold run_tests, events, stdout, events, exit_of, run.
  rewrite tests_main. repeat split; reflexivity.
Qed.

(** *** Chunk boundaries *)





(** ** Further properties of the script *)

Lemma setup_ok_or_uncaught (e : env) : setup_ok e \/ exit_of e = Uncaught.
Proof.
  destruct (reply_unit (open_reply e)) as [Ho | Ho].
  2:{ right. unfold exit_of. rewrite (run_open_raises e Ho). reflexivity. }
  destruct (reply_unit (flush_reply e)) as [Hf | Hf].
  2:{ right. unfold exit_of. rewrite (run_flush_raises e Ho Hf). reflexivity. }
  destruct (reply_unit (write_reply e)) as [Hw | Hw].
  2:{ right. unfold exit_of. rewrite (run_write_raises e Ho Hf Hw). reflexivity. }
  left. repeat split; assumption.
Qed.

Lemma loop_ended_on_sentinel (start : Z) (script : list iteration) :
  loop_end start script = Normal false ->
  In x03 (stdout_of (loop_events start script)) /\
  exists o, In o script /\ In x03 (chunk o) /\ now_reply o - start <= 7000000.
Proof.
  induction script as [|o rest IH]; [discriminate|].
  cbn [loop_end loop_events].
  destruct (read_reply o) as [d|] eqn:Hr; [|discriminate].
  assert (Hch : chunk o = d) by (unfold chunk; rewrite Hr; reflexivity).
  destruct (expired start o) eqn:He; [discriminate|].
  unfold stops. rewrite He, orb_false_r.
  destruct (Py.contains Tools.sentinel d) eqn:Hc.
  - intros _. rewrite app_nil_r, stdout_of_turn.
    apply contains_sentinel_iff in Hc. split; [exact Hc|].
    exists o. split; [left; reflexivity|]. rewrite Hch.
    split; [exact Hc | apply expired_false; exact He].
  - intros H. destruct (IH H) as (Hin & q & Hq & Hs & Hw).
    rewrite stdout_of_app. split; [apply in_or_app; right; exact Hin|].
    exists q. split; [right; exact Hq | split; assumption].
Qed.

(** A status 0 means the sentinel was captured: the set-up returned,
    some turn read a chunk holding 0x03 with at most 7 s on the clock,
    and 0x03 is on standard output. *)
Theorem exit_0_means_sentinel_captured (e : env) :
  exit_of e = Exited 0 ->
  setup_ok e /\
  In x03 (stdout e) /\
  exists o, In o (iterations e) /\ In x03 (chunk o) /\
            now_reply o - start_now e <= 7000000.
Proof.
  intros Hx. destruct (setup_ok_or_uncaught e) as [Hok | Hu];
    [|rewrite Hu in Hx; discriminate Hx].
  split; [exact Hok|]. rewrite (exit_of_setup_ok e Hok) in Hx.
  rewrite (stdout_setup_ok e Hok). apply loop_ended_on_sentinel.
  destruct (loop_end (start_now e) (iterations e)) as [[|]| |];
    try discriminate Hx. reflexivity.
Qed.

Lemma exit_0_means_sentinel_captured_witness :
  setup_ok init_ok_world /\
  In x03 (stdout init_ok_world) /\
  exists o, In o (iterations init_ok_world) /\ In x03 (chunk o) /\
            now_reply o - start_now init_ok_world <= 7000000.
Proof.
  apply (exit_0_means_sentinel_captured init_ok_world). reflexivity.
Defined.

(** [sys.exit] is reached only when the set-up returned, and only with
    the status 0 or 1. *)
Theorem exit_status_is_0_or_1 (e : env) (code : Z) :
  exit_of e = Exited code ->
  (code = 0 \/ code = 1) /\ setup_ok e.
Proof.
  intros Hx. destruct (setup_ok_or_uncaught e) as [Hok | Hu];
    [|rewrite Hu in Hx; discriminate Hx].
  split; [|exact Hok]. rewrite (exit_of_setup_ok e Hok) in Hx.
  destruct (loop_end (start_now e) (iterations e)) as [[|]| |];
    cbn in Hx; try discriminate Hx; injection Hx as <-; auto.
Qed.

Lemma exit_status_is_0_or_1_witness :
  (1 = 0 \/ 1 = 1) /\ setup_ok silent_world.
Proof.
  apply (exit_status_is_0_or_1 silent_world 1). reflexivity.
Defined.

(** When the opening, the flush or the wake-byte write raises, the
    script ends on that exception: it never reads the clock or the
    port, nothing reaches standard output, [sys.exit] is not reached;
    when it is the opening that raised, no other call is made. *)
Theorem setup_failure_aborts_before_capture (e : env) :
  ~ setup_ok e ->
  exit_of e = Uncaught /\
  stdout e = [] /\
  filter is_read (events e) = [] /\
  filter is_now (events e) = [] /\
  (open_reply e = Raises -> events e = [EvOpen device]).
Proof.
  intros Hno.
  destruct (reply_unit (open_reply e)) as [Ho | Ho].
  2:{ unfold exit_of, stdout, events. rewrite (run_open_raises e Ho).
      repeat split; reflexivity. }
  destruct (reply_unit (flush_reply e)) as [Hf | Hf].
  2:{ unfold exit_of, stdout, events. rewrite (run_flush_raises e Ho Hf).
      repeat split; try reflexivity. rewrite Ho. discriminate. }
  destruct (reply_unit (write_reply e)) as [Hw | Hw].
  2:{ unfold exit_of, stdout, events. rewrite (run_write_raises e Ho Hf Hw).
      repeat split; try reflexivity. rewrite Ho. discriminate. }
  exfalso. apply Hno. repeat split; assumption.
Qed.

Lemma setup_failure_aborts_before_capture_witness :
  exit_of no_device = Uncaught /\
  stdout no_device = [] /\
  filter is_read (events no_device) = [] /\
  filter is_now (events no_device) = [] /\
  (open_reply no_device = Raises -> events no_device = [EvOpen device]).
Proof.
  apply (setup_failure_aborts_before_capture no_device).
  intros (H & _). discriminate H.
Defined.

(** When a read raises in the middle of a capture, the script ends on
    that exception: what was read before is on standard output, the
    failed read is the last call before the closing of the port, and
    [sys.exit] is not reached. *)
Theorem read_error_keeps_what_was_captured
    (e : env) (pre rest : list iteration) (o : iteration) :
  setup_ok e ->
  iterations e = pre ++ o :: rest ->
  Forall (quiet (start_now e)) pre ->
  read_reply o = Raises ->
  exit_of e = Uncaught /\
  stdout e = List.concat (map chunk pre) /\
  exists tr, events e = tr ++ [EvRead Raises; EvClose].
Proof.
  intros Hok Hit Hpre Hr.
  destruct (loop_quiet_prefix (start_now e) pre (o :: rest) Hpre)
    as (He & Ho & _).
  assert (Hend : loop_end (start_now e) (iterations e) = Raised).
  { rewrite Hit, He. cbn [loop_end]. rewrite Hr. reflexivity. }
  split; [|split].
  - rewrite (exit_of_setup_ok e Hok), Hend. reflexivity.
  - rewrite (stdout_setup_ok e Hok), Hit, Ho. cbn [loop_events]. rewrite Hr.
    apply app_nil_r.
  - exists (setup_events e ++ loop_events (start_now e) pre).
    rewrite (events_setup_ok e Hok), Hend, Hit.
    rewrite (loop_events_quiet_app _ _ _ Hpre). cbn [loop_events closing].
    rewrite Hr, <- !app_assoc. reflexivity.
Qed.

Lemma read_error_keeps_what_was_captured_witness :
  exit_of broken_read = Uncaught /\
  stdout broken_read =
    List.concat (map chunk [mkIteration (Returns [x6f; x6b]) 100000]) /\
  exists tr, events broken_read = tr ++ [EvRead Raises; EvClose].
Proof.
  apply (read_error_keeps_what_was_captured broken_read
           [mkIteration (Returns [x6f; x6b]) 100000] []
           (mkIteration Raises 200000)).
  - repeat split; reflexivity.
  - reflexivity.
  - constructor; [|constructor]. exists [x6f; x6b]. split; [reflexivity|].
    split; [|cbn; lia]. intros [H | [H | []]]; discriminate H.
  - reflexivity.
Defined.

(** In the turn that runs into the deadline the chunk just read is
    still forwarded: standard output holds everything read up to and
    including that turn, and nothing is read afterwards. *)
Theorem timeout_keeps_what_was_captured
    (e : env) (pre rest : list iteration) (o : iteration) (d : bytes) :
  setup_ok e ->
  iterations e = pre ++ o :: rest ->
  Forall (quiet (start_now e)) pre ->
  read_reply o = Returns d ->
  7000000 < now_reply o - start_now e ->
  stdout e = List.concat (map chunk pre) ++ d /\
  chunks_of (events e) = map chunk pre ++ [d].
Proof.
  intros Hok Hit Hpre Hr Hw. apply expired_true in Hw.
  destruct (loop_quiet_prefix (start_now e) pre (o :: rest) Hpre)
    as (_ & Ho & Hk).
  split.
  - rewrite (stdout_setup_ok e Hok), Hit, Ho. cbn [loop_events].
    rewrite Hr. unfold stops. rewrite Hw, orb_true_r.
    rewrite app_nil_r, stdout_of_turn. reflexivity.
  - rewrite (events_setup_ok e Hok), !chunks_of_app, chunks_of_setup,
      chunks_of_closing, Hit, Hk.
    cbn [loop_events app]. rewrite Hr. unfold stops. rewrite Hw, orb_true_r.
    rewrite !app_nil_r, chunks_of_turn. reflexivity.
Qed.

Lemma timeout_keeps_what_was_captured_witness :
  stdout partial_then_silence =
    List.concat (map chunk [mkIteration (Returns partial) 100000;
                            mkIteration (Returns []) 7000000]) ++ [] /\
  chunks_of (events partial_then_silence) =
    map chunk [mkIteration (Returns partial) 100000;
               mkIteration (Returns []) 7000000] ++ [[]].
Proof.
  apply (timeout_keeps_what_was_captured partial_then_silence
           [mkIteration (Returns partial) 100000;
            mkIteration (Returns []) 7000000] []
           (mkIteration (Returns []) 7100000) []).
  - repeat split; reflexivity.
  - reflexivity.
  - constructor; [|constructor; [|constructor]].
    + exists partial. split; [reflexivity|]. split; [|cbn; lia].
      unfold partial. cbn [In]. intros H.
      repeat (destruct H as [H | H]; [discriminate H|]). exact H.
    + exists []. split; [reflexivity|]. split; [intros [] | cbn; lia].
  - reflexivity.
  - cbn. lia.
Defined.

Lemma loop_pending_iff (start : Z) (script : list iteration) :
  loop_end start script = Pending <-> Forall (quiet start) script.
Proof.
  induction script as [|o rest IH].
  - split; [constructor | reflexivity].
  - cbn [loop_end]. split.
    + destruct (read_reply o) as [d|] eqn:Hr; [|discriminate].
      destruct (expired start o) eqn:He; [discriminate|].
      destruct (Py.contains Tools.sentinel d) eqn:Hc; [discriminate|].
      intros H. constructor; [|apply IH; exact H].
      exists d. split; [exact Hr|].
      split; [apply contains_sentinel_false; exact Hc
             | apply expired_false; exact He].
    + intros HF. inversion HF as [|? ? (d & Hr & Hs & Hw) HF']; subst.
      apply contains_sentinel_false in Hs. apply expired_false in Hw.
      rewrite Hr, Hw, Hs. apply IH. exact HF'.
Qed.

(** The loop goes on exactly as long as every turn so far returned a
    chunk without the sentinel and saw at most 7 s on the clock: a run
    is still reading after the scripted turns if and only if the set-up
    returned and all of them are such turns. *)
Theorem still_reading_iff_all_turns_quiet (e : env) :
  exit_of e = StillReading <->
  setup_ok e /\ Forall (quiet (start_now e)) (iterations e).
Proof.
  split.
  - intros Hx. destruct (setup_ok_or_uncaught e) as [Hok | Hu];
      [|rewrite Hu in Hx; discriminate Hx].
    split; [exact Hok|]. apply loop_pending_iff.
    rewrite (exit_of_setup_ok e Hok) in Hx.
    destruct (loop_end (start_now e) (iterations e)) as [[|]| |];
      try discriminate Hx. reflexivity.
  - intros [Hok HF]. apply loop_pending_iff in HF.
    rewrite (exit_of_setup_ok e Hok), HF. reflexivity.
Qed.

Lemma still_reading_iff_all_turns_quiet_witness :
  exit_of (world 0 [mkIteration (Returns partial) 100000;
                    mkIteration (Returns []) 7000000]) = StillReading.
Proof.
  apply (proj2 (still_reading_iff_all_turns_quiet
                  (world 0 [mkIteration (Returns partial) 100000;
                            mkIteration (Returns []) 7000000]))).
  split; [repeat split; reflexivity|].
  constructor; [|constructor; [|constructor]].
  - exists partial. split; [reflexivity|]. split; [|cbn; lia].
    unfold partial. cbn [In]. intros H.
    repeat (destruct H as [H | H]; [discriminate H|]). exact H.
  - exists []. split; [reflexivity|]. split; [intros [] | cbn; lia].
Defined.

Lemma loop_finished_app (start : Z) (script more : list iteration) :
  loop_end start script <> Pending ->
  loop_end start (script ++ more) = loop_end start script /\
  loop_events start (script ++ more) = loop_events start script.
Proof.
  induction script as [|o rest IH]; intros H.
  - exfalso. apply H. reflexivity.
  - cbn [app loop_end loop_events] in *.
    destruct (read_reply o) as [d|]; [|split; reflexivity].
    unfold stops. destruct (expired start o).
    + rewrite orb_true_r. split; reflexivity.
    + rewrite orb_false_r. destruct (Py.contains Tools.sentinel d).
      * split; reflexivity.
      * destruct (IH H) as [He Hv]. rewrite He, Hv. split; reflexivity.
Qed.

(** Once the run is over (on the sentinel, on the deadline or on an
    exception) nothing the device or the clock would answer later
    matters: with any further answers appended the script makes the same
    calls, leaves the same state and ends in the same way. *)
Theorem finished_run_ignores_later_answers
    (e : env) (more : list iteration) :
  exit_of e <> StillReading ->
  run (extend e more) = run e.
Proof.
  intros Hx.
  destruct (reply_unit (open_reply e)) as [Ho | Ho].
  2:{ rewrite (run_open_raises e Ho).
      apply (run_open_raises (extend e more)). exact Ho. }
  destruct (reply_unit (flush_reply e)) as [Hf | Hf].
  2:{ rewrite (run_flush_raises e Ho Hf).
      apply (run_flush_raises (extend e more)); assumption. }
  destruct (reply_unit (write_reply e)) as [Hw | Hw].
  2:{ rewrite (run_write_raises e Ho Hf Hw).
      apply (run_write_raises (extend e more)); assumption. }
  assert (Hok : setup_ok e) by (repeat split; assumption).
  assert (Hok' : setup_ok (extend e more)) by (repeat split; assumption).
  rewrite (exit_of_setup_ok e Hok) in Hx.
  assert (Hp : loop_end (start_now e) (iterations e) <> Pending).
  { intros Hp. apply Hx. rewrite Hp. reflexivity. }
  destruct (loop_finished_app (start_now e) (iterations e) more Hp)
    as [He Hv].
  pose proof (run_setup_ok e Hok) as R1.
  pose proof (run_setup_ok (extend e more) Hok') as R2.
  cbv zeta in R1, R2. unfold setup_events in R1, R2.
  cbn [extend start_now iterations] in R2.
  rewrite He, Hv in R2. rewrite R1, R2. reflexivity.
Qed.

Lemma finished_run_ignores_later_answers_witness :
  run (extend init_ok_world [mkIteration (Returns partial) 950000]) =
  run init_ok_world.
Proof.
  apply (finished_run_ignores_later_answers init_ok_world
           [mkIteration (Returns partial) 950000]).
  vm_compute. discriminate.
Defined.

(** In the loop, what is written to standard output is a non-empty
    chunk, and the call just before the write is the read that returned
    that chunk. *)
Lemma loop_events_stdout_split (start : Z) (script : list iteration) :
  forall (l1 : list event) (d : bytes) (l2 : list event),
    loop_events start script = l1 ++ EvStdout d :: l2 ->
    d <> [] /\ exists l1', l1 = l1' ++ [EvRead (Returns d)].
Proof.
  induction script as [|o rest IH]; intros l1 d l2 H.
  - destruct l1; discriminate H.
  - cbn [loop_events] in H. destruct (read_reply o) as [d0|] eqn:Hr.
    + unfold turn_events in H. cbn [app] in H. peel H l1.
      unfold forwarded in H.
      destruct (negb (Py.len d0 =? 0)) eqn:E; cbn [app] in H.
      * destruct l1 as [|y l1]; cbn [app] in H.
        -- injection H as Hd _. subst d0. split.
           ++ intros ->. vm_compute in E. discriminate E.
           ++ exists []. reflexivity.
        -- injection H as <- H. peel H l1.
           destruct (stops start o d0); [destruct l1; discriminate H|].
           destruct (IH _ _ _ H) as (Hne & l1' & ->). split; [exact Hne|].
           exists (EvRead (Returns d0) :: EvStdout d0
                     :: EvNow (now_reply o) :: l1').
           reflexivity.
      * peel H l1.
        destruct (stops start o d0); [destruct l1; discriminate H|].
        destruct (IH _ _ _ H) as (Hne & l1' & ->). split; [exact Hne|].
        exists (EvRead (Returns d0) :: EvNow (now_reply o) :: l1').
        reflexivity.
    + peel H l1. destruct l1; discriminate H.
Qed.

(** Every write to standard output is the immediate forwarding of what
    was just read: the data written is non-empty (an empty read is not
    written) and the call that precedes the write is the read that
    returned exactly these bytes. *)
Theorem stdout_write_follows_its_read
    (e : env) (l1 l2 : list event) (d : bytes) :
  events e = l1 ++ EvStdout d :: l2 ->
  d <> [] /\ exists l1', l1 = l1' ++ [EvRead (Returns d)].
Proof.
  intros H.
  destruct (reply_unit (open_reply e)) as [Ho | Ho].
  2:{ unfold events in H. rewrite (run_open_raises e Ho) in H.
      cbn [fst trace] in H. peel H l1. destruct l1; discriminate H. }
  destruct (reply_unit (flush_reply e)) as [Hf | Hf].
  2:{ unfold events in H. rewrite (run_flush_raises e Ho Hf) in H.
      cbn [fst trace] in H. do 3 peel H l1. destruct l1; discriminate H. }
  destruct (reply_unit (write_reply e)) as [Hw | Hw].
  2:{ unfold events in H. rewrite (run_write_raises e Ho Hf Hw) in H.
      cbn [fst trace] in H. do 5 peel H l1. destruct l1; discriminate H. }
  assert (Hok : setup_ok e) by (repeat split; assumption).
  rewrite (events_setup_ok e Hok) in H. unfold setup_events in H.
  cbn [app] in H. do 5 peel H l1.
  assert (Hl : exists l2', loop_events (start_now e) (iterations e)
                           = l1 ++ EvStdout d :: l2').
  { destruct (loop_end (start_now e) (iterations e)) as [b| |];
      cbn [closing] in H.
    - apply split_last in H; [|discriminate]. destruct H as (l2' & _ & H).
      exists l2'. exact H.
    - apply split_last in H; [|discriminate]. destruct H as (l2' & _ & H).
      exists l2'. exact H.
    - rewrite app_nil_r in H. exists l2. exact H. }
  destruct Hl as (l2' & Hl).
  destruct (loop_events_stdout_split _ _ _ _ _ Hl) as (Hne & l1' & ->).
  split; [exact Hne|].
  exists (EvOpen device :: EvFlushInput :: EvSleep 500 :: EvWrite [x20]
            :: EvNow (start_now e) :: l1').
  reflexivity.
Qed.

Lemma stdout_write_follows_its_read_witness :
  init_ok_etx <> [] /\
  exists l1',
    setup_events init_ok_world ++
      [EvRead (Returns []); EvNow 100000; EvRead (Returns init_ok_etx)]
    = l1' ++ [EvRead (Returns init_ok_etx)].
Proof.
  apply (stdout_write_follows_its_read init_ok_world
           (setup_events init_ok_world ++
              [EvRead (Returns []); EvNow 100000;
               EvRead (Returns init_ok_etx)])
           [EvNow 900000; EvClose] init_ok_etx).
  reflexivity.
Defined.

Lemma writes_loop (start : Z) (script : list iteration) :
  filter is_write (loop_events start script) = [].
Proof.
  induction script as [|o rest IH]; [reflexivity|].
  cbn [loop_events]. destruct (read_reply o) as [d|]; [|reflexivity].
  rewrite filter_app. unfold turn_events. cbn [filter is_write].
  rewrite filter_app. unfold forwarded.
  destruct (negb (Py.len d =? 0)); cbn [filter is_write app];
    (destruct (stops start o d); [reflexivity | exact IH]).
Qed.

(** The script writes to the device once at most: the single space of
    the wake-up, written when the opening and the flush returned, and
    nothing else whatever it reads afterwards. *)
Theorem only_the_wake_byte_is_written (e : env) :
  filter is_write (events e) =
    match open_reply e, flush_reply e with
    | Returns _, Returns _ => [EvWrite [x20]]
    | _, _ => []
    end.
Proof.
  destruct (reply_unit (open_reply e)) as [Ho | Ho].
  2:{ unfold events. rewrite (run_open_raises e Ho), Ho. reflexivity. }
  destruct (reply_unit (flush_reply e)) as [Hf | Hf].
  2:{ unfold events. rewrite (run_flush_raises e Ho Hf), Ho, Hf. reflexivity. }
  destruct (reply_unit (write_reply e)) as [Hw | Hw].
  2:{ unfold events. rewrite (run_write_raises e Ho Hf Hw), Ho, Hf.
      reflexivity. }
  assert (Hok : setup_ok e) by (repeat split; assumption).
  rewrite (events_setup_ok e Hok), Ho, Hf, !filter_app, writes_loop.
  destruct (loop_end (start_now e) (iterations e)); reflexivity.
Qed.
